(** * slang: the C demo harness of the [SlangParseLang] foreign function

    A shallow embedding of [ffi/slang.h] (the boundary types) and of
    [ffi/slang.c] (the [main] function of the demo), together with the
    small part of the C library that [main] uses: [strlen] and [printf]
    with the [%s] and [%d] directives.

    Bytes are [Byte.byte]; C objects live in a block memory and are
    addressed by (block, offset) pointers; the callee [SlangParseLang] is
    external and is a parameter of the development. Undefined behaviour
    is the [None] outcome of the program monad. *)

From Stdlib Require Import ZArith Lia List.
From Stdlib Require Import Strings.String Strings.Byte.
From Stdlib Require Import Numbers.DecimalString Numbers.DecimalZ.
From stdpp Require Import base option list gmap.

Local Open Scope Z_scope.

(** ** Bytes and C string literals *)

Definition NUL : byte := x00.
Definition LF : byte := x0a.

(** What the C compiler does to the escape sequences of a literal. *)
Fixpoint unescape (bs : list byte) : list byte :=
  match bs with
  | x5c :: x6e :: rest => LF :: unescape rest
  | x5c :: x5c :: rest => x5c :: unescape rest
  | x5c :: x27 :: rest => x27 :: unescape rest
  | b :: rest => b :: unescape rest
  | [] => []
  end.

(** [C "text\n"] is the byte content of the C literal (terminator excluded). *)
Definition C (s : string) : list byte := unescape (list_byte_of_string s).

(** ** Memory: blocks of bytes, pointers into them *)

Definition block := nat.

Inductive ptr : Type :=
  | NULL
  | Ptr (b : block) (ofs : nat).

Arguments Ptr (b ofs)%_nat_scope.

Definition mem := gmap block (list byte).

(** The bytes of a buffer up to its first NUL; [None] when the buffer ends
    before any terminator (a read past the object). *)
Fixpoint c_str (buf : list byte) : option (list byte) :=
  match buf with
  | [] => None
  | b :: rest =>
      if Byte.eqb b NUL then Some []
      else match c_str rest with
           | Some s => Some (b :: s)
           | None => None
           end
  end.

(** The C string a [char *] designates. *)
Definition load_string (m : mem) (q : ptr) : option (list byte) :=
  match q with
  | NULL => None
  | Ptr b ofs =>
      match m !! b with
      | Some buf => c_str (drop ofs buf)
      | None => None
      end
  end.

(** ** [slang.h]: the boundary types *)

Section Boundary.

(** Width in bits of [size_t] and [ptrdiff_t] ([stddef.h] is not part of
    the sources; the data model of the target is a parameter). *)
Variable ptr_bits : positive.

Definition PTRDIFF_MAX : Z := 2 ^ (Z.pos ptr_bits - 1) - 1.
Definition PTRDIFF_MIN : Z := - 2 ^ (Z.pos ptr_bits - 1).

(** Conversion of an integer value to [size_t] and to [ptrdiff_t]. *)
Definition to_size_t (z : Z) : Z := z mod 2 ^ Z.pos ptr_bits.
Definition to_ptrdiff_t (z : Z) : Z :=
  (z + 2 ^ (Z.pos ptr_bits - 1)) mod 2 ^ Z.pos ptr_bits
  - 2 ^ (Z.pos ptr_bits - 1).

(** [typedef signed char SlangInt8;] : one byte of storage. *)
Definition SlangInt8 := byte.

(** The value of a [signed char] object (two's complement); it is also the
    [int] it promotes to when passed to a variadic function. *)
Definition SlangInt8_value (e : SlangInt8) : Z :=
  let u := Z.of_N (Byte.to_N e) in
  if u <? 128 then u else u - 256.

(** Conversion of an integer value to [signed char]. *)
Definition SlangInt8_of_Z (z : Z) : SlangInt8 :=
  match Byte.of_N (Z.to_N (z mod 256)) with
  | Some b => b
  | None => x00
  end.

(** [typedef struct { const char *p; ptrdiff_t n; } SlangString;] *)
Record SlangString : Type := mkSlangString {
  p : ptr;
  n : Z
}.

(** [struct SlangParseLangResult { SlangInt8 errcode; char* tabstr; }] *)
Record SlangParseLangResult : Type := mkSlangParseLangResult {
  errcode : SlangInt8;
  tabstr : ptr
}.

(** ** The process: memory and the trace of what the caller did *)

Inductive event : Type :=
  | EvWrite (bs : list byte)        (* bytes sent to standard output *)
  | EvCall (langCode : SlangString) (* a call of SlangParseLang *)
  | EvRelease (q : ptr).            (* a release of the string at q; no
                                       statement of slang.c produces one *)

Record world : Type := mkWorld {
  heap : mem;
  trace : list event
}.

(** Programs: state passing over [world]; [None] is undefined behaviour. *)
Definition prog (A : Type) : Type := world -> option (A * world).

Definition ret {A} (a : A) : prog A := fun w => Some (a, w).

Definition bind {A B} (c : prog A) (k : A -> prog B) : prog B :=
  fun w => match c w with
           | Some (a, w') => k a w'
           | None => None
           end.

Definition lift_opt {A} (o : option A) : prog A :=
  fun w => match o with Some a => Some (a, w) | None => None end.

Notation "'do' x <- c ; k" := (bind c (fun x => k))
  (at level 10, x name, c at level 100, k at level 200).

(** ** The C library as [main] uses it *)

(** [size_t strlen(const char *s)] *)
Definition strlen (s : ptr) : prog Z :=
  fun w => match load_string (heap w) s with
           | Some bs => Some (to_size_t (Z.of_nat (length bs)), w)
           | None => None
           end.

(** The arguments of a variadic call after the default promotions. *)
Inductive va_arg : Type :=
  | VaInt (z : Z)
  | VaStr (s : ptr).

(** [%d]: the decimal digits of an [int], with [-] for negative values. *)
Definition decimal (z : Z) : list byte :=
  list_byte_of_string (NilZero.string_of_int (Z.to_int z)).

(** The text a format produces. Only the directives [%s], [%d] and [%%]
    are modelled; a directive without a matching argument is undefined. *)
Fixpoint format (m : mem) (fmt : list byte) (args : list va_arg)
  : option (list byte) :=
  match fmt with
  | [] => Some []
  | x25 :: x73 :: fmt' =>                          (* %s *)
      match args with
      | VaStr s :: args' =>
          match load_string m s, format m fmt' args' with
          | Some bs, Some rest => Some (bs ++ rest)
          | _, _ => None
          end
      | _ => None
      end
  | x25 :: x64 :: fmt' =>                          (* %d *)
      match args with
      | VaInt z :: args' =>
          match format m fmt' args' with
          | Some rest => Some (decimal z ++ rest)
          | None => None
          end
      | _ => None
      end
  | x25 :: x25 :: fmt' =>                          (* %% *)
      match format m fmt' args with
      | Some rest => Some (x25 :: rest)
      | None => None
      end
  | x25 :: _ => None
  | b :: fmt' =>
      match format m fmt' args with
      | Some rest => Some (b :: rest)
      | None => None
      end
  end.

(** [int printf(const char *format, ...)]: returns the number of bytes. *)
Definition printf (fmt : list byte) (args : list va_arg) : prog Z :=
  fun w => match format (heap w) fmt args with
           | Some bs =>
               Some (Z.of_nat (length bs),
                     {| heap := heap w; trace := trace w ++ [EvWrite bs] |})
           | None => None
           end.

(** ** [slang.c] *)

(** [extern SlangParseLangResult SlangParseLang(SlangString langCode);]
    The callee sees the memory and may change it (it allocates the
    returned string). *)
Variable SlangParseLang : SlangString -> mem -> SlangParseLangResult * mem.

Definition call_SlangParseLang (langCode : SlangString)
  : prog SlangParseLangResult :=
  fun w =>
    let (result, m') := SlangParseLang langCode (heap w) in
    Some (result, {| heap := m'; trace := trace w ++ [EvCall langCode] |}).

(** [argv[i]]: the array is not changed during the run, so each [argv[1]]
    of the source reads the same pointer. *)
Definition index (argv : list ptr) (i : nat) : prog ptr :=
  lift_opt (argv !! i).

(** The view [main] builds from the pointer [argv[1]] when the string
    there is [X] (lines 12 and 14 of [slang.c]): the name used below for
    the argument of the call. *)
Definition langCode_for (argv1 : ptr) (X : list byte) : SlangString :=
  {| p := argv1; n := to_ptrdiff_t (to_size_t (Z.of_nat (length X))) |}.

(** [int main(int argc, char *argv[])] *)
Definition main (argc : Z) (argv : list ptr) : prog Z :=
  if argc <? 2 then
    do argv0 <- index argv 0;
    do _ <- printf (C "Usage: %s <lang-code>\n") [VaStr argv0];
    ret 0
  else
    do argv1 <- index argv 1;
    do langCodeLen <- strlen argv1;
    let langCode := {| p := argv1; n := to_ptrdiff_t langCodeLen |} in
    do result <- call_SlangParseLang langCode;
    do _ <- printf (C "SlangParseLang('%s'): code = %d\n%s\n")
                   [VaStr argv1; VaInt (SlangInt8_value (errcode result));
                    VaStr (tabstr result)];
    ret 0.

End Boundary.

(** ** What a run shows to the outside *)

(** The process starts with the memory the loader set up and no event. *)
Definition start (m : mem) : world := {| heap := m; trace := [] |}.

(** The bytes on standard output, in order. *)
Fixpoint stdout (t : list event) : list byte :=
  match t with
  | [] => []
  | EvWrite bs :: t' => bs ++ stdout t'
  | _ :: t' => stdout t'
  end.

(** The calls of [SlangParseLang], in order, with the view each one got. *)
Fixpoint calls (t : list event) : list SlangString :=
  match t with
  | [] => []
  | EvCall v :: t' => v :: calls t'
  | _ :: t' => calls t'
  end.

(** The pointers the caller released, in order. *)
Fixpoint releases (t : list event) : list ptr :=
  match t with
  | [] => []
  | EvRelease q :: t' => q :: releases t'
  | _ :: t' => releases t'
  end.

(** Returning [rc] from [main] ends the process with status [rc & 0377]. *)
Definition exit_status (rc : Z) : Z := Z.land rc 255.

(** The lines of a text, split at each LF (the LF itself removed). *)
Fixpoint lines (bs : list byte) : list (list byte) :=
  match bs with
  | [] => []
  | b :: rest =>
      if Byte.eqb b LF then [] :: lines rest
      else match lines rest with
           | [] => [[b]]
           | l :: ls => (b :: l) :: ls
           end
  end.

(** Reading back a decimal numeral. *)
Definition parse_decimal (bs : list byte) : option Z :=
  option_map Z.of_int (NilZero.int_of_string (string_of_list_byte bs)).

(** ** The two texts the interface description promises *)

(** [Usage: <program-name> <lang-code>] and its newline. *)
Definition usage_text (name : list byte) : list byte :=
  C "Usage: " ++ name ++ C " <lang-code>" ++ [LF].

(** [SlangParseLang('X'): code = <errcode>], on the next line [<tabstr>],
    each line ended by its newline. *)
Definition report_line (X : list byte) (code : Z) : list byte :=
  C "SlangParseLang('" ++ X ++ C "'): code = " ++ decimal code.

Definition report_text (X : list byte) (code : Z) (T : list byte) : list byte :=
  report_line X code ++ [LF] ++ T ++ [LF].

(** ** Counting releases *)

Definition ptr_eqb (q r : ptr) : bool :=
  match q, r with
  | NULL, NULL => true
  | Ptr b o, Ptr b' o' => Nat.eqb b b' && Nat.eqb o o'
  | _, _ => false
  end.

(** How many times the caller released [q]. *)
Definition release_count (q : ptr) (t : list event) : nat :=
  length (filter (fun r => ptr_eqb q r = true) (releases t)).

(** The release discipline asked of the caller, for one run: when the run
    ends and the callee returned a non-null payload, that payload was
    released exactly once. *)
Definition releases_payload_once (ptr_bits : positive)
    (SlangParseLang : SlangString -> mem -> SlangParseLangResult * mem)
    (argc : Z) (argv : list ptr) (m : mem) : Prop :=
  forall rc w' v,
    main ptr_bits SlangParseLang argc argv (start m) = Some (rc, w') ->
    calls (trace w') = [v] ->
    tabstr (fst (SlangParseLang v m)) <> NULL ->
    release_count (tabstr (fst (SlangParseLang v m))) (trace w') = 1%nat.

(** ** Text encodings *)

(** A byte of the form 10xxxxxx continues a UTF-8 character. *)
Definition utf8_continuation (b : byte) : bool :=
  N.eqb (N.land (Byte.to_N b) 192) 128.

(** The number of characters of a UTF-8 text. *)
Definition utf8_chars (bs : list byte) : nat :=
  length (filter (fun b => utf8_continuation b = false) bs).

(** ** Concrete runs *)

Module Demo.

(** The argument area the loader prepares for [slang en]. *)
Definition memory : mem := {[ 0%nat := C "slang" ++ NUL :: C "en" ++ [NUL] ]}.
Definition argv : list ptr := [Ptr 0 0; Ptr 0 6; NULL].

(** The same for [slang] alone. *)
Definition argv_alone : list ptr := [Ptr 0 0; NULL].

(** The same for [slang en fr de]. *)
Definition memory_more : mem :=
  {[ 3%nat := C "./slang" ++ NUL :: C "en" ++ NUL :: C "fr" ++ NUL :: C "de" ++ [NUL] ]}.
Definition argv_more : list ptr :=
  [Ptr 3 0; Ptr 3 8; Ptr 3 11; Ptr 3 14; NULL].

(** The same for [slang ''] (an empty argument). *)
Definition memory_empty : mem := {[ 0%nat := C "slang" ++ [NUL; NUL] ]}.

(** The same for an argument of one two-byte character (U+00E9). *)
Definition memory_utf8 : mem := {[ 0%nat := C "slang" ++ [NUL; xc3; xa9; NUL] ]}.

(** A callee that answers [(0, "OK")] in a block of its own. *)
Definition result_ok : SlangParseLangResult :=
  {| errcode := SlangInt8_of_Z 0; tabstr := Ptr 7 0 |}.
Definition callee_ok (v : SlangString) (m : mem) : SlangParseLangResult * mem :=
  (result_ok, <[ 7%nat := C "OK" ++ [NUL] ]> m).

(** A callee that answers [(-1, "")]. *)
Definition result_fail : SlangParseLangResult :=
  {| errcode := SlangInt8_of_Z (-1); tabstr := Ptr 7 0 |}.
Definition callee_fail (v : SlangString) (m : mem) : SlangParseLangResult * mem :=
  (result_fail, <[ 7%nat := [NUL] ]> m).

(** A callee that answers an error code and no payload. *)
Definition result_null : SlangParseLangResult :=
  {| errcode := SlangInt8_of_Z (-1); tabstr := NULL |}.
Definition callee_null (v : SlangString) (m : mem) : SlangParseLangResult * mem :=
  (result_null, m).

End Demo.

(** ** Runs at the edges *)

Module Edge.

(** An invocation with an empty argument vector: [argv[0]] is null. *)
Definition argv_none : list ptr := [NULL].

(** A callee that writes through the borrowed pointer (it turns the
    argument of [slang en] into upper case) before it answers ["OK"]. *)
Definition callee_clobber (v : SlangString) (m : mem)
  : SlangParseLangResult * mem :=
  ({| errcode := SlangInt8_of_Z 0; tabstr := Ptr 7 0 |},
   <[ 7%nat := C "OK" ++ [NUL] ]>
     (<[ 0%nat := C "slang" ++ NUL :: C "EN" ++ [NUL] ]> m)).

(** A callee whose payload holds a line break: it answers [(0, "a\nb")]. *)
Definition callee_two_lines (v : SlangString) (m : mem)
  : SlangParseLangResult * mem :=
  ({| errcode := SlangInt8_of_Z 0; tabstr := Ptr 7 0 |},
   <[ 7%nat := C "a\nb" ++ [NUL] ]> m).

(** A callee that counts its own invocations in block 9 of the memory
    (one byte, absent before the first call) and answers [(0, "OK")]. *)
Definition callee_counting (v : SlangString) (m : mem)
  : SlangParseLangResult * mem :=
  let seen := match m !! 9%nat with
              | Some [b] => Z.of_N (Byte.to_N b)
              | _ => 0
              end in
  ({| errcode := SlangInt8_of_Z 0; tabstr := Ptr 7 0 |},
   <[ 9%nat := [SlangInt8_of_Z (seen + 1)] ]>
     (<[ 7%nat := C "OK" ++ [NUL] ]> m)).

End Edge.

(** ** The second line of the output *)

(** The statement that, for one run, the second line of the output is the
    returned string: when the run ends, the line of index 1 of standard
    output is the string [tabstr] designates. *)
Definition second_line_is_tabstr (ptr_bits : positive)
    (SlangParseLang : SlangString -> mem -> SlangParseLangResult * mem)
    (argc : Z) (argv : list ptr) (m : mem) : Prop :=
  forall rc w' v T,
    main ptr_bits SlangParseLang argc argv (start m) = Some (rc, w') ->
    calls (trace w') = [v] ->
    load_string (heap w') (tabstr (fst (SlangParseLang v m))) = Some T ->
    lines (stdout (trace w')) !! 1%nat = Some T.

(** ** Objects and the width of pointers *)

(** Every object of the memory has a size that [ptrdiff_t] can hold, as
    the objects of a process with pointers of [ptr_bits] bits do. *)
Definition objects_fit (ptr_bits : positive) (m : mem) : Prop :=
  forall b buf, m !! b = Some buf ->
                Z.of_nat (length buf) <= PTRDIFF_MAX ptr_bits.

(** * Properties *)

(** ** C strings in memory *)

Lemma c_str_app (X rest : list byte) :
  (NUL ∉ X) -> c_str (X ++ NUL :: rest) = Some X.
Proof.
  induction X as [|b X IH]; intros Hnul.
  - reflexivity.
  - apply not_elem_of_cons in Hnul as [Hb HX].
    cbn [app c_str].
    destruct (Byte.eqb b NUL) eqn:E.
    + apply Byte.byte_dec_bl in E. congruence.
    + now rewrite (IH HX).
Qed.

Lemma c_str_inv (buf s : list byte) :
  c_str buf = Some s -> (NUL ∉ s) /\ exists rest, buf = s ++ NUL :: rest.
Proof.
  revert s. induction buf as [|b buf IH]; intros s; cbn [c_str].
  - discriminate.
  - destruct (Byte.eqb b NUL) eqn:E.
    + intros [= <-]. apply Byte.byte_dec_bl in E as ->.
      split; [apply not_elem_of_nil | now exists buf].
    + destruct (c_str buf) as [s'|] eqn:Hs; [|discriminate].
      intros [= <-]. destruct (IH s' eq_refl) as [Hn [rest ->]].
      split.
      * apply not_elem_of_cons. split; [|exact Hn].
        intros <-. now rewrite Byte.byte_dec_lb in E.
      * now exists rest.
Qed.

Lemma load_string_layout (m : mem) (q : ptr) (s : list byte) :
  load_string m q = Some s ->
  exists b ofs buf rest,
    q = Ptr b ofs /\ m !! b = Some buf /\
    drop ofs buf = s ++ NUL :: rest /\ (NUL ∉ s).
Proof.
  destruct q as [|b ofs]; [discriminate|]. cbn [load_string].
  destruct (m !! b) as [buf|] eqn:Hb; [|discriminate].
  intros H. apply c_str_inv in H as [Hnul [rest H]].
  now exists b, ofs, buf, rest.
Qed.

Lemma load_string_not_NULL (m : mem) (q : ptr) (s : list byte) :
  load_string m q = Some s -> q <> NULL.
Proof. now destruct q. Qed.

(** A memory that only grew still holds every string it held: a callee
    that does nothing but allocate leaves the borrowed argument intact. *)
Lemma load_string_weaken (m m' : mem) (q : ptr) (s : list byte) :
  m ⊆ m' -> load_string m q = Some s -> load_string m' q = Some s.
Proof.
  intros Hsub. destruct q as [|b ofs]; [discriminate|].
  unfold load_string, mem in *.
  destruct (m !! b) as [buf|] eqn:Hb; [|discriminate].
  now rewrite (lookup_weaken _ _ _ _ Hb Hsub).
Qed.

(** ** Integer conversions *)

Lemma SlangInt8_value_range (e : SlangInt8) : -128 <= SlangInt8_value e <= 127.
Proof.
  unfold SlangInt8_value. pose proof (Byte.to_N_bounded e) as Hb.
  destruct (Z.ltb_spec (Z.of_N (Byte.to_N e)) 128); lia.
Qed.

Lemma SlangInt8_of_Z_value (z : Z) :
  -128 <= z <= 127 -> SlangInt8_value (SlangInt8_of_Z z) = z.
Proof.
  intros Hz. unfold SlangInt8_of_Z.
  destruct (Byte.of_N (Z.to_N (z mod 256))) as [b|] eqn:E.
  - apply Byte.to_of_N in E. unfold SlangInt8_value. rewrite E.
    rewrite Z2N.id by (apply Z.mod_pos_bound; lia).
    destruct (Z.ltb_spec (z mod 256) 128); Z.div_mod_to_equations; lia.
  - apply Byte.of_N_None_iff in E.
    pose proof (Z.mod_pos_bound z 256). lia.
Qed.

Section Conversions.
Variable ptr_bits : positive.

Lemma pow2_ptr_bits :
  2 ^ Z.pos ptr_bits = 2 * 2 ^ (Z.pos ptr_bits - 1).
Proof.
  rewrite <- Z.pow_succ_r by lia. f_equal. lia.
Qed.

Lemma to_ptrdiff_t_range (z : Z) :
  PTRDIFF_MIN ptr_bits <= to_ptrdiff_t ptr_bits z <= PTRDIFF_MAX ptr_bits.
Proof.
  unfold PTRDIFF_MIN, PTRDIFF_MAX, to_ptrdiff_t.
  pose proof pow2_ptr_bits as H2.
  assert (0 < 2 ^ (Z.pos ptr_bits - 1)) by (apply Z.pow_pos_nonneg; lia).
  pose proof (Z.mod_pos_bound (z + 2 ^ (Z.pos ptr_bits - 1)) (2 ^ Z.pos ptr_bits)).
  lia.
Qed.

(** A length that fits [ptrdiff_t] survives both conversions. *)
Lemma to_ptrdiff_t_size_t (z : Z) :
  0 <= z <= PTRDIFF_MAX ptr_bits ->
  to_ptrdiff_t ptr_bits (to_size_t ptr_bits z) = z.
Proof.
  unfold PTRDIFF_MAX, to_ptrdiff_t, to_size_t. intros Hz.
  pose proof pow2_ptr_bits as H2.
  assert (0 < 2 ^ (Z.pos ptr_bits - 1)) by (apply Z.pow_pos_nonneg; lia).
  rewrite (Z.mod_small z) by lia.
  rewrite Z.mod_small by lia. lia.
Qed.

End Conversions.

(** ** [%d] prints a numeral that reads back as the value *)

Lemma parse_decimal_decimal (z : Z) : parse_decimal (decimal z) = Some z.
Proof.
  unfold parse_decimal, decimal.
  rewrite string_of_list_byte_of_string.
  rewrite NilZero.isi.
  - cbn [option_map]. now rewrite DecimalZ.of_to.
  - intros H. pose proof (DecimalZ.of_to z) as Hz. rewrite H in Hz.
    cbn in Hz. subst z. discriminate H.
  - intros H. pose proof (DecimalZ.of_to z) as Hz. rewrite H in Hz.
    cbn in Hz. subst z. discriminate H.
Qed.

(** ** The formats of [main] *)

Lemma format_usage (m : mem) (a : ptr) :
  format m (C "Usage: %s <lang-code>\n") [VaStr a] =
  match load_string m a with
  | Some name => Some (usage_text name)
  | None => None
  end.
Proof.
  unfold usage_text.
  cbn -[load_string]. destruct (load_string m a); reflexivity.
Qed.

Lemma format_report (m : mem) (a : ptr) (code : Z) (t : ptr) :
  format m (C "SlangParseLang('%s'): code = %d\n%s\n")
         [VaStr a; VaInt code; VaStr t] =
  match load_string m a, load_string m t with
  | Some X, Some T => Some (report_text X code T)
  | _, _ => None
  end.
Proof.
  unfold report_text, report_line.
  cbn -[load_string decimal].
  destruct (load_string m a) as [X|], (load_string m t) as [T|]; try reflexivity.
  cbn. now rewrite <- !app_assoc.
Qed.

(** ** Stepping through a program *)

Lemma bind_Some {A B} (c : prog A) (k : A -> prog B) (w w' : world) (a : A) :
  c w = Some (a, w') -> bind c k w = k a w'.
Proof. unfold bind. now intros ->. Qed.

Section Paths.

Variable ptr_bits : positive.
Variable SlangParseLang : SlangString -> mem -> SlangParseLangResult * mem.

(** The branch taken when [argc < 2]. *)
Lemma usage_branch (argc : Z) (argv : list ptr) (w : world) (argv0 : ptr) :
  argc < 2 ->
  argv !! 0%nat = Some argv0 ->
  main ptr_bits SlangParseLang argc argv w =
  match load_string (heap w) argv0 with
  | Some name =>
      Some (0, {| heap := heap w;
                  trace := trace w ++ [EvWrite (usage_text name)] |})
  | None => None
  end.
Proof.
  intros Hargc Harg. unfold main.
  apply Z.ltb_lt in Hargc. rewrite Hargc.
  rewrite (bind_Some _ _ w w argv0) by (unfold index, lift_opt; now rewrite Harg).
  unfold bind, printf, ret. rewrite format_usage.
  now destruct (load_string (heap w) argv0).
Qed.

(** The branch taken when [argc >= 2], up to the return of the callee. *)
Lemma call_branch (argc : Z) (argv : list ptr) (w : world)
    (argv1 : ptr) (X : list byte) (result : SlangParseLangResult) (m' : mem) :
  2 <= argc ->
  argv !! 1%nat = Some argv1 ->
  load_string (heap w) argv1 = Some X ->
  SlangParseLang (langCode_for ptr_bits argv1 X) (heap w) = (result, m') ->
  main ptr_bits SlangParseLang argc argv w =
  match load_string m' argv1, load_string m' (tabstr result) with
  | Some X', Some T =>
      Some (0, {| heap := m';
                  trace := (trace w ++ [EvCall (langCode_for ptr_bits argv1 X)])
                           ++ [EvWrite (report_text X'
                                 (SlangInt8_value (errcode result)) T)] |})
  | _, _ => None
  end.
Proof.
  intros Hargc Harg HX Hcall. unfold main.
  apply Z.ltb_ge in Hargc. rewrite Hargc.
  rewrite (bind_Some _ _ w w argv1) by (unfold index, lift_opt; now rewrite Harg).
  rewrite (bind_Some _ _ w w (to_size_t ptr_bits (Z.of_nat (length X))))
    by (unfold strlen; now rewrite HX).
  rewrite (bind_Some _ _ w
             {| heap := m'; trace := trace w ++ [EvCall (langCode_for ptr_bits argv1 X)] |}
             result)
    by (unfold call_SlangParseLang; fold (langCode_for ptr_bits argv1 X); now rewrite Hcall).
  unfold bind, printf, ret. cbn [heap trace]. rewrite format_report.
  destruct (load_string m' argv1), (load_string m' (tabstr result)); reflexivity.
Qed.

(** Whatever the callee does, a run of [main] that is defined returns 0
    after one write, preceded by one call when [argc >= 2]. *)
Lemma defined_run_inv (argc : Z) (argv : list ptr) (w w' : world) (rc : Z) :
  main ptr_bits SlangParseLang argc argv w = Some (rc, w') ->
  rc = 0 /\
  ((argc < 2 /\ exists bs, trace w' = trace w ++ [EvWrite bs]) \/
   (2 <= argc /\ exists v bs, trace w' = trace w ++ [EvCall v; EvWrite bs])).
Proof.
  unfold main. destruct (Z.ltb_spec argc 2) as [Hlt|Hge].
  - unfold bind, index, lift_opt, printf, ret.
    destruct (argv !! 0%nat); [|discriminate].
    destruct (format _ _ _) as [bs|]; [|discriminate].
    intros [= <- <-]. split; [reflexivity|]. left.
    split; [exact Hlt|]. now exists bs.
  - unfold bind, index, lift_opt, strlen, call_SlangParseLang, printf, ret.
    destruct (argv !! 1%nat) as [argv1|]; [|discriminate].
    destruct (load_string (heap w) argv1) as [X|]; [|discriminate].
    destruct (SlangParseLang _ (heap w)) as [result m1].
    cbn [heap trace].
    destruct (format _ _ _) as [bs|]; [|discriminate].
    intros [= <- <-]. split; [reflexivity|]. right.
    split; [exact Hge|]. eexists _, bs. cbn [trace].
    now rewrite <- app_assoc.
Qed.

(** A defined run with [argc >= 2], read backwards: the one application
    of the callee it contains, and what was printed from its result. *)
Lemma defined_call_inv (argc : Z) (argv : list ptr) (w w' : world) (rc : Z) :
  2 <= argc ->
  main ptr_bits SlangParseLang argc argv w = Some (rc, w') ->
  exists argv1 X X' T,
    argv !! 1%nat = Some argv1 /\
    load_string (heap w) argv1 = Some X /\
    load_string
      (snd (SlangParseLang (langCode_for ptr_bits argv1 X) (heap w)))
      argv1 = Some X' /\
    load_string
      (snd (SlangParseLang (langCode_for ptr_bits argv1 X) (heap w)))
      (tabstr (fst (SlangParseLang (langCode_for ptr_bits argv1 X) (heap w))))
      = Some T /\
    rc = 0 /\
    w' = {| heap := snd (SlangParseLang (langCode_for ptr_bits argv1 X) (heap w));
            trace := trace w ++
              [EvCall (langCode_for ptr_bits argv1 X);
               EvWrite (report_text X'
                 (SlangInt8_value
                    (errcode (fst (SlangParseLang
                                     (langCode_for ptr_bits argv1 X) (heap w)))))
                 T)] |}.
Proof.
  intros Hargc. unfold main. apply Z.ltb_ge in Hargc. rewrite Hargc.
  unfold bind at 1, index, lift_opt.
  destruct (argv !! 1%nat) as [argv1|] eqn:Harg; [|discriminate].
  unfold bind at 1, strlen.
  destruct (load_string (heap w) argv1) as [X|] eqn:HX; [|discriminate].
  unfold bind at 1, call_SlangParseLang.
  fold (langCode_for ptr_bits argv1 X).
  destruct (SlangParseLang (langCode_for ptr_bits argv1 X) (heap w))
    as [result m1] eqn:Hcall.
  unfold bind, printf, ret. cbn [heap trace fst snd].
  rewrite format_report.
  destruct (load_string m1 argv1) as [X'|] eqn:HX'; [|discriminate].
  destruct (load_string m1 (tabstr result)) as [T|] eqn:HT; [|discriminate].
  intros [= <- <-]. exists argv1, X, X', T.
  rewrite Hcall. cbn [fst snd]. rewrite <- app_assoc. now repeat split.
Qed.

End Paths.

(** ** Lines of the output *)

Lemma no_LF_check (l : list byte) :
  existsb (Byte.eqb LF) l = false -> LF ∉ l.
Proof.
  induction l as [|b l IH]; cbn [existsb]; intros H.
  - apply not_elem_of_nil.
  - apply orb_false_elim in H as [Hb Hl].
    apply not_elem_of_cons. split; [|now apply IH].
    intros <-. now rewrite Byte.byte_dec_lb in Hb.
Qed.

Lemma lines_app_LF (l rest : list byte) :
  (LF ∉ l) -> lines (l ++ LF :: rest) = l :: lines rest.
Proof.
  induction l as [|b l IH]; intros Hl.
  - reflexivity.
  - apply not_elem_of_cons in Hl as [Hb Hl].
    cbn [app lines]. rewrite (IH Hl).
    destruct (Byte.eqb b LF) eqn:E; [|reflexivity].
    apply Byte.byte_dec_bl in E. congruence.
Qed.

(** The numeral of an error code never holds a line break. *)
Lemma decimal_SlangInt8_no_LF (e : SlangInt8) :
  LF ∉ decimal (SlangInt8_value e).
Proof. apply no_LF_check. destruct e; reflexivity. Qed.

Lemma report_line_no_LF (X : list byte) (e : SlangInt8) :
  (LF ∉ X) -> LF ∉ report_line X (SlangInt8_value e).
Proof.
  intros HX. unfold report_line.
  rewrite !not_elem_of_app. repeat split.
  - now apply no_LF_check.
  - exact HX.
  - now apply no_LF_check.
  - apply decimal_SlangInt8_no_LF.
Qed.

(** ** The usage path *)

(** C2. When [argc < 2] and [argv[0]] holds the invocation name, the run
    prints the usage line with that name, ends with status 0 and makes no
    call of [SlangParseLang]. *)
Theorem main_usage (ptr_bits : positive)
    (SlangParseLang : SlangString -> mem -> SlangParseLangResult * mem)
    (argc : Z) (argv : list ptr) (m : mem) (argv0 : ptr) (name : list byte) :
  argc < 2 ->
  argv !! 0%nat = Some argv0 ->
  load_string m argv0 = Some name ->
  exists rc w',
    main ptr_bits SlangParseLang argc argv (start m) = Some (rc, w') /\
    stdout (trace w') = C "Usage: " ++ name ++ C " <lang-code>\n" /\
    exit_status rc = 0 /\
    calls (trace w') = [].
Proof.
  intros Hargc Harg Hname.
  rewrite (usage_branch _ _ argc argv (start m) argv0 Hargc Harg).
  cbn [start heap trace]. rewrite Hname.
  eexists _, _. split; [reflexivity|].
  cbn [trace app stdout calls]. rewrite app_nil_r.
  repeat split.
Qed.

Lemma main_usage_witness :
  exists rc w',
    main 64 Demo.callee_ok 1 Demo.argv_alone (start Demo.memory) = Some (rc, w') /\
    stdout (trace w') = C "Usage: " ++ C "slang" ++ C " <lang-code>\n" /\
    exit_status rc = 0 /\
    calls (trace w') = [].
Proof.
  apply (main_usage 64 Demo.callee_ok 1 Demo.argv_alone Demo.memory
           (Ptr 0 0) (C "slang")).
  - lia.
  - reflexivity.
  - reflexivity.
Defined.

(** ** The call path *)

Section CallPath.

Variable ptr_bits : positive.
Variable SlangParseLang : SlangString -> mem -> SlangParseLangResult * mem.

(** An invocation with an argument: [argv[1]] designates the string [X]. *)
Variable m : mem.
Variable argc : Z.
Variable argv : list ptr.
Variable argv1 : ptr.
Variable X : list byte.
Hypothesis Hargc : 2 <= argc.
Hypothesis Hargv1 : argv !! 1%nat = Some argv1.
Hypothesis HX : load_string m argv1 = Some X.

(** The callee returns [result] and leaves the memory [m']; there the
    borrowed argument is intact and [tabstr] designates the string [T]. *)
Variable result : SlangParseLangResult.
Variable m' : mem.
Variable T : list byte.
Hypothesis Hcall :
  SlangParseLang (langCode_for ptr_bits argv1 X) m = (result, m').
Hypothesis Hborrowed : load_string m' argv1 = Some X.
Hypothesis Hpayload : load_string m' (tabstr result) = Some T.

Lemma call_branch_returns :
  main ptr_bits SlangParseLang argc argv (start m) =
  Some (0, {| heap := m';
              trace := [EvCall (langCode_for ptr_bits argv1 X);
                        EvWrite (report_text X
                                   (SlangInt8_value (errcode result)) T)] |}).
Proof.
  rewrite (call_branch ptr_bits SlangParseLang argc argv (start m)
             argv1 X result m' Hargc Hargv1 HX Hcall).
  now rewrite Hborrowed, Hpayload.
Qed.

(** C6. With at least one argument the run ends after exactly one
    application of [SlangParseLang]: the trace holds one call, the memory
    at the end is the memory that one application left, and what is
    printed is taken from the result of that application. Whatever a
    callee does, a run with [argc >= 2] that is defined has this shape. *)
Theorem main_calls_once :
  (exists rc w',
     main ptr_bits SlangParseLang argc argv (start m) = Some (rc, w') /\
     trace w' = [EvCall (langCode_for ptr_bits argv1 X);
                 EvWrite (report_text X (SlangInt8_value (errcode result)) T)] /\
     heap w' = m' /\
     calls (trace w') = [langCode_for ptr_bits argv1 X] /\
     length (calls (trace w')) = 1%nat) /\
  (forall callee rc w',
     main ptr_bits callee argc argv (start m) = Some (rc, w') ->
     exists v X' T',
       trace w' = [EvCall v;
                   EvWrite (report_text X'
                              (SlangInt8_value (errcode (fst (callee v m))))
                              T')] /\
       heap w' = snd (callee v m) /\
       load_string (snd (callee v m)) (tabstr (fst (callee v m))) = Some T' /\
       length (calls (trace w')) = 1%nat).
Proof.
  split.
  - eexists _, _. split; [apply call_branch_returns|]. now repeat split.
  - intros callee rc w' Hrun.
    apply (defined_call_inv ptr_bits callee argc argv (start m) w' rc Hargc)
      in Hrun as (a1 & X0 & X' & T' & _ & _ & _ & HT' & _ & ->).
    cbn [start heap trace app] in HT' |- *.
    exists (langCode_for ptr_bits a1 X0), X', T'. now repeat split.
Qed.

(** C5, as the code has it. The output is the first line, a newline, the
    bytes stored at [tabstr] up to their terminator, unchanged, and a
    newline, for every returned string (the empty one included). When
    neither the argument nor the returned string holds a line break, the
    output has two lines and the second is the returned string. *)
Theorem main_prints_tabstr :
  exists rc w',
    main ptr_bits SlangParseLang argc argv (start m) = Some (rc, w') /\
    stdout (trace w') =
      report_line X (SlangInt8_value (errcode result)) ++ LF :: T ++ [LF] /\
    (exists b ofs buf rest,
       tabstr result = Ptr b ofs /\ m' !! b = Some buf /\
       drop ofs buf = T ++ NUL :: rest /\ (NUL ∉ T)) /\
    ((LF ∉ X) -> (LF ∉ T) ->
     lines (stdout (trace w')) =
       [report_line X (SlangInt8_value (errcode result)); T]).
Proof.
  exists 0, {| heap := m';
               trace := [EvCall (langCode_for ptr_bits argv1 X);
                         EvWrite (report_text X
                                    (SlangInt8_value (errcode result)) T)] |}.
  split; [apply call_branch_returns|].
  assert (Hout : stdout [EvCall (langCode_for ptr_bits argv1 X);
                         EvWrite (report_text X
                                    (SlangInt8_value (errcode result)) T)] =
                 report_line X (SlangInt8_value (errcode result))
                   ++ LF :: T ++ [LF]).
  { cbn [stdout]. now rewrite app_nil_r. }
  cbn [trace]. split; [exact Hout|].
  split; [exact (load_string_layout _ _ _ Hpayload)|].
  intros HXl HTl. rewrite Hout.
  rewrite lines_app_LF by now apply report_line_no_LF.
  now rewrite lines_app_LF.
Qed.

(** C3, as the code has it. The caller never releases the payload: the
    trace of the run holds no release at all (so none happens twice), and
    when [main] returns the payload is still allocated, contents intact.
    Whatever a callee does, no defined run of [main] holds a release. *)
Theorem main_never_releases :
  (exists rc w',
     main ptr_bits SlangParseLang argc argv (start m) = Some (rc, w') /\
     tabstr result <> NULL /\
     releases (trace w') = [] /\
     release_count (tabstr result) (trace w') = 0%nat /\
     load_string (heap w') (tabstr result) = Some T) /\
  (forall callee argc' argv' m0 rc w' q,
     main ptr_bits callee argc' argv' (start m0) = Some (rc, w') ->
     release_count q (trace w') = 0%nat).
Proof.
  split.
  - eexists _, _. split; [apply call_branch_returns|].
    cbn [trace heap releases]. repeat split.
    + exact (load_string_not_NULL _ _ _ Hpayload).
    + exact Hpayload.
  - intros callee argc' argv' m0 rc w' q Hrun.
    apply defined_run_inv in Hrun
      as [_ [[_ (bs & ->)]|[_ (v & bs & ->)]]]; reflexivity.
Qed.

(** C4. For an argument of [L] bytes that fits [ptrdiff_t], the view the
    callee receives has [n = L], the count of the bytes before the
    terminator, and [p] is the pointer [argv[1]] itself: it designates
    the bytes of [X] in the memory of the caller, which is the memory the
    callee is run on (nothing was copied or allocated before the call). *)
Theorem main_view_length :
  Z.of_nat (length X) <= PTRDIFF_MAX ptr_bits ->
  exists rc w' v,
    main ptr_bits SlangParseLang argc argv (start m) = Some (rc, w') /\
    calls (trace w') = [v] /\
    n v = Z.of_nat (length X) /\
    p v = argv1 /\
    load_string m (p v) = Some X /\
    (NUL ∉ X) /\
    heap w' = snd (SlangParseLang v m).
Proof.
  intros Hfits.
  eexists _, _, _. split; [apply call_branch_returns|].
  cbn [trace calls]. split; [reflexivity|].
  unfold langCode_for; cbn [n p].
  split; [apply to_ptrdiff_t_size_t; lia|].
  split; [reflexivity|]. split; [exact HX|]. split.
  - destruct argv1 as [|b ofs]; [discriminate HX|].
    cbn [load_string] in HX. destruct (m !! b); [|discriminate].
    now apply c_str_inv in HX.
  - fold (langCode_for ptr_bits argv1 X). now rewrite Hcall.
Qed.

End CallPath.

Lemma main_calls_once_witness :
  (exists rc w',
     main 64 Edge.callee_counting 4 Demo.argv_more (start Demo.memory_more)
       = Some (rc, w') /\
     trace w' = [EvCall (langCode_for 64 (Ptr 3 8) (C "en"));
                 EvWrite (report_text (C "en")
                            (SlangInt8_value (errcode Demo.result_ok))
                            (C "OK"))] /\
     heap w' = <[ 9%nat := [x01] ]>
                 (<[ 7%nat := C "OK" ++ [NUL] ]> Demo.memory_more) /\
     calls (trace w') = [langCode_for 64 (Ptr 3 8) (C "en")] /\
     length (calls (trace w')) = 1%nat) /\
  (forall callee rc w',
     main 64 callee 4 Demo.argv_more (start Demo.memory_more) = Some (rc, w') ->
     exists v X' T',
       trace w' = [EvCall v;
                   EvWrite (report_text X'
                              (SlangInt8_value
                                 (errcode (fst (callee v Demo.memory_more))))
                              T')] /\
       heap w' = snd (callee v Demo.memory_more) /\
       load_string (snd (callee v Demo.memory_more))
                   (tabstr (fst (callee v Demo.memory_more))) = Some T' /\
       length (calls (trace w')) = 1%nat).
Proof.
  refine (main_calls_once 64 Edge.callee_counting Demo.memory_more 4
            Demo.argv_more (Ptr 3 8) (C "en") _ _ _ Demo.result_ok
            (<[ 9%nat := [x01] ]>
               (<[ 7%nat := C "OK" ++ [NUL] ]> Demo.memory_more))
            (C "OK") _ _ _).
  - lia.
  - reflexivity.
  - reflexivity.
  - reflexivity.
  - reflexivity.
  - reflexivity.
Defined.

Lemma main_prints_tabstr_witness :
  (exists rc w',
     main 64 Demo.callee_ok 2 Demo.argv (start Demo.memory) = Some (rc, w') /\
     stdout (trace w') =
       report_line (C "en") (SlangInt8_value (errcode Demo.result_ok))
         ++ LF :: C "OK" ++ [LF] /\
     (exists b ofs buf rest,
        tabstr Demo.result_ok = Ptr b ofs /\
        (<[ 7%nat := C "OK" ++ [NUL] ]> Demo.memory) !! b = Some buf /\
        drop ofs buf = C "OK" ++ NUL :: rest /\ (NUL ∉ C "OK")) /\
     ((LF ∉ C "en") -> (LF ∉ C "OK") ->
      lines (stdout (trace w')) =
        [report_line (C "en") (SlangInt8_value (errcode Demo.result_ok));
         C "OK"])) /\
  (exists rc w',
     main 64 Demo.callee_fail 2 Demo.argv (start Demo.memory) = Some (rc, w') /\
     stdout (trace w') =
       report_line (C "en") (SlangInt8_value (errcode Demo.result_fail))
         ++ LF :: [] ++ [LF] /\
     (exists b ofs buf rest,
        tabstr Demo.result_fail = Ptr b ofs /\
        (<[ 7%nat := [NUL] ]> Demo.memory) !! b = Some buf /\
        drop ofs buf = [] ++ NUL :: rest /\ (NUL ∉ [])) /\
     ((LF ∉ C "en") -> (LF ∉ []) ->
      lines (stdout (trace w')) =
        [report_line (C "en") (SlangInt8_value (errcode Demo.result_fail));
         []])).
Proof.
  split.
  - refine (main_prints_tabstr 64 Demo.callee_ok Demo.memory 2 Demo.argv
              (Ptr 0 6) (C "en") _ _ _ Demo.result_ok
              (<[ 7%nat := C "OK" ++ [NUL] ]> Demo.memory) (C "OK") _ _ _).
    + lia.
    + reflexivity.
    + reflexivity.
    + reflexivity.
    + reflexivity.
    + reflexivity.
  - refine (main_prints_tabstr 64 Demo.callee_fail Demo.memory 2 Demo.argv
              (Ptr 0 6) (C "en") _ _ _ Demo.result_fail
              (<[ 7%nat := [NUL] ]> Demo.memory) [] _ _ _).
    + lia.
    + reflexivity.
    + reflexivity.
    + reflexivity.
    + reflexivity.
    + reflexivity.
Defined.

(** On the run of [slang en] against a callee that returns the payload
    ["a\nb"], the second line of the output is ["a"], not the payload. *)
Lemma second_line_fails :
  ~ second_line_is_tabstr 64 Edge.callee_two_lines 2 Demo.argv Demo.memory.
Proof.
  intros H.
  assert (E : main 64 Edge.callee_two_lines 2 Demo.argv (start Demo.memory) =
              Some (0, {| heap := <[ 7%nat := C "a\nb" ++ [NUL] ]> Demo.memory;
                          trace := [EvCall {| p := Ptr 0 6; n := 2 |};
                                    EvWrite (C "SlangParseLang('en'): code = 0\na\nb\n")] |}))
    by (vm_compute; reflexivity).
  specialize (H _ _ {| p := Ptr 0 6; n := 2 |} (C "a\nb") E eq_refl eq_refl).
  vm_compute in H. discriminate H.
Qed.

Lemma main_never_releases_witness :
  (exists rc w',
     main 64 Demo.callee_ok 2 Demo.argv (start Demo.memory) = Some (rc, w') /\
     tabstr Demo.result_ok <> NULL /\
     releases (trace w') = [] /\
     release_count (tabstr Demo.result_ok) (trace w') = 0%nat /\
     load_string (heap w') (tabstr Demo.result_ok) = Some (C "OK")) /\
  (forall callee argc' argv' m0 rc w' q,
     main 64 callee argc' argv' (start m0) = Some (rc, w') ->
     release_count q (trace w') = 0%nat).
Proof.
  refine (main_never_releases 64 Demo.callee_ok Demo.memory 2 Demo.argv
            (Ptr 0 6) (C "en") _ _ _ Demo.result_ok
            (<[ 7%nat := C "OK" ++ [NUL] ]> Demo.memory) (C "OK") _ _ _).
  - lia.
  - reflexivity.
  - reflexivity.
  - reflexivity.
  - reflexivity.
  - reflexivity.
Defined.

Lemma main_view_length_witness :
  exists rc w' v,
    main 64 Demo.callee_ok 2 Demo.argv (start Demo.memory_utf8)
      = Some (rc, w') /\
    calls (trace w') = [v] /\
    n v = Z.of_nat (length [xc3; xa9]) /\
    p v = Ptr 0 6 /\
    load_string Demo.memory_utf8 (p v) = Some [xc3; xa9] /\
    (NUL ∉ [xc3; xa9]) /\
    heap w' = snd (Demo.callee_ok v Demo.memory_utf8).
Proof.
  refine (main_view_length 64 Demo.callee_ok Demo.memory_utf8 2 Demo.argv
            (Ptr 0 6) [xc3; xa9] _ _ _ Demo.result_ok
            (<[ 7%nat := C "OK" ++ [NUL] ]> Demo.memory_utf8) (C "OK") _ _ _ _).
  - lia.
  - reflexivity.
  - reflexivity.
  - reflexivity.
  - reflexivity.
  - reflexivity.
  - vm_compute. discriminate.
Defined.

(** The release discipline fails on the run of [slang en] against a callee
    that returns the payload ["OK"]: the payload is released zero times. *)
Lemma release_once_fails :
  ~ releases_payload_once 64 Demo.callee_ok 2 Demo.argv Demo.memory.
Proof.
  intros H.
  assert (E : main 64 Demo.callee_ok 2 Demo.argv (start Demo.memory) =
              Some (0, {| heap := <[ 7%nat := C "OK" ++ [NUL] ]> Demo.memory;
                          trace := [EvCall {| p := Ptr 0 6; n := 2 |};
                                    EvWrite (C "SlangParseLang('en'): code = 0\nOK\n")] |}))
    by (vm_compute; reflexivity).
  specialize (H _ _ {| p := Ptr 0 6; n := 2 |} E eq_refl).
  assert (Hc : 0%nat = 1%nat) by (apply H; discriminate).
  discriminate Hc.
Qed.

(** ** The report of a call *)

(** C1. With exactly one argument [X], the output is the line
    [SlangParseLang('X'): code = <errcode>] and, on the next line, the
    returned string; [<errcode>] is the decimal numeral of the value the
    callee returned (it reads back as that value); the exit status is 0
    whatever the error code. *)
Theorem main_one_argument (ptr_bits : positive)
    (SlangParseLang : SlangString -> mem -> SlangParseLangResult * mem)
    (m : mem) (argv : list ptr) (argv1 : ptr) (X : list byte)
    (result : SlangParseLangResult) (m' : mem) (T : list byte) :
  argv !! 1%nat = Some argv1 ->
  load_string m argv1 = Some X ->
  SlangParseLang (langCode_for ptr_bits argv1 X) m = (result, m') ->
  load_string m' argv1 = Some X ->
  load_string m' (tabstr result) = Some T ->
  exists rc w',
    main ptr_bits SlangParseLang 2 argv (start m) = Some (rc, w') /\
    stdout (trace w') =
      C "SlangParseLang('" ++ X ++ C "'): code = "
        ++ decimal (SlangInt8_value (errcode result)) ++ C "\n"
        ++ T ++ C "\n" /\
    parse_decimal (decimal (SlangInt8_value (errcode result)))
      = Some (SlangInt8_value (errcode result)) /\
    exit_status rc = 0.
Proof.
  intros Harg HX Hcall Hkeep HT.
  pose proof (call_branch_returns ptr_bits SlangParseLang m 2 argv argv1 X
                ltac:(lia) Harg HX result m' T Hcall Hkeep HT) as Hrun.
  eexists _, _. split; [exact Hrun|].
  cbn [trace stdout]. rewrite app_nil_r.
  split; [|split].
  - unfold report_text, report_line. now rewrite <- !app_assoc.
  - apply parse_decimal_decimal.
  - reflexivity.
Qed.

Lemma main_one_argument_witness :
  exists rc w',
    main 64 Demo.callee_ok 2 Demo.argv (start Demo.memory) = Some (rc, w') /\
    stdout (trace w') =
      C "SlangParseLang('" ++ C "en" ++ C "'): code = "
        ++ decimal (SlangInt8_value (errcode Demo.result_ok)) ++ C "\n"
        ++ C "OK" ++ C "\n" /\
    parse_decimal (decimal (SlangInt8_value (errcode Demo.result_ok)))
      = Some (SlangInt8_value (errcode Demo.result_ok)) /\
    exit_status rc = 0.
Proof.
  refine (main_one_argument 64 Demo.callee_ok Demo.memory Demo.argv
            (Ptr 0 6) (C "en") Demo.result_ok
            (<[ 7%nat := C "OK" ++ [NUL] ]> Demo.memory) (C "OK") _ _ _ _ _).
  - reflexivity.
  - reflexivity.
  - reflexivity.
  - reflexivity.
  - reflexivity.
Defined.

(** C7. An empty argument still takes the call path: when the callee
    answers [(-1, "")] the whole output is
    [SlangParseLang(''): code = -1\n\n], the callee was called (once, with
    a view of length 0) and the exit status is 0. *)
Theorem main_empty_argument (ptr_bits : positive)
    (SlangParseLang : SlangString -> mem -> SlangParseLangResult * mem)
    (m : mem) (argv : list ptr) (argv1 : ptr)
    (result : SlangParseLangResult) (m' : mem) :
  argv !! 1%nat = Some argv1 ->
  load_string m argv1 = Some [] ->
  SlangParseLang (langCode_for ptr_bits argv1 []) m = (result, m') ->
  SlangInt8_value (errcode result) = -1 ->
  load_string m' argv1 = Some [] ->
  load_string m' (tabstr result) = Some [] ->
  exists rc w',
    main ptr_bits SlangParseLang 2 argv (start m) = Some (rc, w') /\
    stdout (trace w') = C "SlangParseLang(''): code = -1\n\n" /\
    calls (trace w') = [{| p := argv1; n := 0 |}] /\
    exit_status rc = 0.
Proof.
  intros Harg HX Hcall Hcode Hkeep HT.
  assert (H2 : 2 <= 2) by lia.
  rewrite (call_branch ptr_bits SlangParseLang 2 argv (start m) argv1 []
             result m' H2 Harg HX Hcall).
  rewrite Hkeep, HT, Hcode.
  eexists _, _. split; [reflexivity|].
  cbn [trace start app stdout calls]. repeat split.
  f_equal. unfold langCode_for. f_equal.
  apply (to_ptrdiff_t_size_t ptr_bits 0). unfold PTRDIFF_MAX.
  assert (0 < 2 ^ (Z.pos ptr_bits - 1)) by (apply Z.pow_pos_nonneg; lia).
  lia.
Qed.

Lemma main_empty_argument_witness :
  exists rc w',
    main 32 Demo.callee_fail 2 Demo.argv (start Demo.memory_empty)
      = Some (rc, w') /\
    stdout (trace w') = C "SlangParseLang(''): code = -1\n\n" /\
    calls (trace w') = [{| p := Ptr 0 6; n := 0 |}] /\
    exit_status rc = 0.
Proof.
  refine (main_empty_argument 32 Demo.callee_fail Demo.memory_empty Demo.argv
            (Ptr 0 6) Demo.result_fail (<[ 7%nat := [NUL] ]> Demo.memory_empty)
            _ _ _ _ _ _).
  - reflexivity.
  - reflexivity.
  - reflexivity.
  - reflexivity.
  - reflexivity.
  - reflexivity.
Defined.

(** C9. [result.tabstr] goes to [%s] unchecked. On the call path, a null
    [tabstr] makes the run undefined; and a run that is defined had a
    non-null [tabstr] that designates a string. *)
Theorem main_null_tabstr (ptr_bits : positive)
    (SlangParseLang : SlangString -> mem -> SlangParseLangResult * mem)
    (m : mem) (argc : Z) (argv : list ptr) (argv1 : ptr) (X : list byte)
    (result : SlangParseLangResult) (m' : mem) :
  2 <= argc ->
  argv !! 1%nat = Some argv1 ->
  load_string m argv1 = Some X ->
  SlangParseLang (langCode_for ptr_bits argv1 X) m = (result, m') ->
  (tabstr result = NULL ->
   main ptr_bits SlangParseLang argc argv (start m) = None) /\
  (is_Some (main ptr_bits SlangParseLang argc argv (start m)) ->
   tabstr result <> NULL /\ is_Some (load_string m' (tabstr result))).
Proof.
  intros Hargc Harg HX Hcall.
  rewrite (call_branch ptr_bits SlangParseLang argc argv (start m) argv1 X
             result m' Hargc Harg HX Hcall).
  split.
  - intros ->. cbn [load_string]. now destruct (load_string m' argv1).
  - destruct (load_string m' argv1) as [X'|];
      [|intros [o Ho]; discriminate Ho].
    destruct (load_string m' (tabstr result)) as [T|] eqn:HT;
      [|intros [o Ho]; discriminate Ho].
    intros _. split; [|now exists T].
    exact (load_string_not_NULL _ _ _ HT).
Qed.

Lemma main_null_tabstr_witness :
  main 64 Demo.callee_null 2 Demo.argv (start Demo.memory) = None.
Proof.
  refine (proj1 (main_null_tabstr 64 Demo.callee_null Demo.memory 2 Demo.argv
                   (Ptr 0 6) (C "en") Demo.result_null Demo.memory _ _ _ _) _).
  - lia.
  - reflexivity.
  - reflexivity.
  - reflexivity.
  - reflexivity.
Defined.

(** ** Further arguments are not read *)

(** C10. Two invocations with at least one argument whose first arguments
    hold the same string and whose callees return the same error code and
    the same string produce the same output and the same exit status,
    whatever else their argument vectors and memories hold. *)
Theorem main_ignores_other_arguments (ptr_bits : positive)
    (callee_a callee_b : SlangString -> mem -> SlangParseLangResult * mem)
    (m_a m_b : mem) (argc_a argc_b : Z) (argv_a argv_b : list ptr)
    (argv1_a argv1_b : ptr) (X : list byte)
    (result_a result_b : SlangParseLangResult) (m_a' m_b' : mem)
    (T : list byte) :
  2 <= argc_a -> 2 <= argc_b ->
  argv_a !! 1%nat = Some argv1_a -> argv_b !! 1%nat = Some argv1_b ->
  load_string m_a argv1_a = Some X -> load_string m_b argv1_b = Some X ->
  callee_a (langCode_for ptr_bits argv1_a X) m_a = (result_a, m_a') ->
  callee_b (langCode_for ptr_bits argv1_b X) m_b = (result_b, m_b') ->
  load_string m_a' argv1_a = Some X -> load_string m_b' argv1_b = Some X ->
  errcode result_a = errcode result_b ->
  load_string m_a' (tabstr result_a) = Some T ->
  load_string m_b' (tabstr result_b) = Some T ->
  exists rc_a w_a rc_b w_b,
    main ptr_bits callee_a argc_a argv_a (start m_a) = Some (rc_a, w_a) /\
    main ptr_bits callee_b argc_b argv_b (start m_b) = Some (rc_b, w_b) /\
    stdout (trace w_a) = stdout (trace w_b) /\
    exit_status rc_a = exit_status rc_b.
Proof.
  intros Ha Hb Harga Hargb HXa HXb Hca Hcb Hka Hkb Hcode HTa HTb.
  pose proof (call_branch_returns ptr_bits callee_a m_a argc_a argv_a argv1_a X
                Ha Harga HXa result_a m_a' T Hca Hka HTa) as Hrun_a.
  pose proof (call_branch_returns ptr_bits callee_b m_b argc_b argv_b argv1_b X
                Hb Hargb HXb result_b m_b' T Hcb Hkb HTb) as Hrun_b.
  eexists _, _, _, _.
  split; [exact Hrun_a|]. split; [exact Hrun_b|].
  cbn [trace stdout]. rewrite Hcode. split; reflexivity.
Qed.

Lemma main_ignores_other_arguments_witness :
  exists rc_a w_a rc_b w_b,
    main 64 Demo.callee_ok 2 Demo.argv (start Demo.memory)
      = Some (rc_a, w_a) /\
    main 64 Demo.callee_ok 4 Demo.argv_more (start Demo.memory_more)
      = Some (rc_b, w_b) /\
    stdout (trace w_a) = stdout (trace w_b) /\
    exit_status rc_a = exit_status rc_b.
Proof.
  refine (main_ignores_other_arguments 64 Demo.callee_ok Demo.callee_ok
            Demo.memory Demo.memory_more 2 4 Demo.argv Demo.argv_more
            (Ptr 0 6) (Ptr 3 8) (C "en") Demo.result_ok Demo.result_ok
            (<[ 7%nat := C "OK" ++ [NUL] ]> Demo.memory)
            (<[ 7%nat := C "OK" ++ [NUL] ]> Demo.memory_more) (C "OK")
            _ _ _ _ _ _ _ _ _ _ _ _ _).
  - lia.
  - lia.
  - reflexivity.
  - reflexivity.
  - reflexivity.
  - reflexivity.
  - reflexivity.
  - reflexivity.
  - reflexivity.
  - reflexivity.
  - reflexivity.
  - reflexivity.
  - reflexivity.
Defined.

(** ** The integer types of the boundary *)

Lemma utf8_chars_le (bs : list byte) : (utf8_chars bs <= length bs)%nat.
Proof. unfold utf8_chars. apply length_filter. Qed.

(** A text with a continuation byte has fewer characters than bytes. *)
Lemma utf8_chars_lt (bs : list byte) :
  (exists b, b ∈ bs /\ utf8_continuation b = true) ->
  (utf8_chars bs < length bs)%nat.
Proof.
  unfold utf8_chars. induction bs as [|c bs IH]; intros (b & Hin & Hb).
  - now apply elem_of_nil in Hin.
  - destruct (utf8_continuation c) eqn:Hc.
    + rewrite filter_cons_False by congruence. cbn [length].
      pose proof (length_filter (fun b => utf8_continuation b = false) bs).
      lia.
    + rewrite filter_cons_True by exact Hc. cbn [length].
      apply elem_of_cons in Hin as [->|Hin]; [congruence|].
      assert (length (filter (fun b => utf8_continuation b = false) bs)
              < length bs)%nat by (apply IH; now exists b).
      lia.
Qed.

(** A string is shorter than the object that holds it. *)
Lemma load_string_fits (ptr_bits : positive) (m : mem) (q : ptr)
    (s : list byte) :
  objects_fit ptr_bits m ->
  load_string m q = Some s ->
  Z.of_nat (length s) <= PTRDIFF_MAX ptr_bits.
Proof.
  intros Hfit Hs.
  apply load_string_layout in Hs as (b & ofs & buf & rest & _ & Hb & Hd & _).
  pose proof (Hfit b buf Hb) as Hbuf.
  assert (Hlen : length (drop ofs buf) = length (s ++ NUL :: rest))
    by now rewrite Hd.
  rewrite length_drop, length_app in Hlen. cbn [length] in Hlen. lia.
Qed.

(** C8. The error-code field is one byte read as a signed integer: the
    value of the [errcode] of every result lies in [-128, 127], distinct
    bytes have distinct values, and that value is what [main] prints.
    The length field holds a signed integer of pointer width: in every
    run the [n] the callee receives lies in the [ptrdiff_t] range, whose
    [2 ^ ptr_bits] values reach below zero. It is the count of the bytes
    of the argument, whenever that count fits and in particular when the
    objects of the memory fit the pointer width; the count of characters
    is never larger and is smaller as soon as the argument holds a
    multi-byte character. *)
Theorem boundary_integers (ptr_bits : positive)
    (SlangParseLang : SlangString -> mem -> SlangParseLangResult * mem)
    (argc : Z) (argv : list ptr) (m : mem) (rc : Z) (w' : world) :
  2 <= argc ->
  main ptr_bits SlangParseLang argc argv (start m) = Some (rc, w') ->
  (forall r : SlangParseLangResult,
     -128 <= SlangInt8_value (errcode r) <= 127) /\
  (forall r : SlangParseLangResult,
     SlangInt8_of_Z (SlangInt8_value (errcode r)) = errcode r) /\
  PTRDIFF_MIN ptr_bits < 0 /\
  PTRDIFF_MAX ptr_bits - PTRDIFF_MIN ptr_bits + 1 = 2 ^ Z.pos ptr_bits /\
  exists v X X' T,
    calls (trace w') = [v] /\
    load_string m (p v) = Some X /\
    PTRDIFF_MIN ptr_bits <= n v <= PTRDIFF_MAX ptr_bits /\
    (Z.of_nat (length X) <= PTRDIFF_MAX ptr_bits ->
     n v = Z.of_nat (length X)) /\
    (objects_fit ptr_bits m -> n v = Z.of_nat (length X)) /\
    (utf8_chars X <= length X)%nat /\
    ((exists b, b ∈ X /\ utf8_continuation b = true) ->
     (utf8_chars X < length X)%nat) /\
    stdout (trace w') =
      report_text X'
        (SlangInt8_value (errcode (fst (SlangParseLang v m)))) T.
Proof.
  intros Hargc Hrun.
  split; [intros r; apply SlangInt8_value_range|].
  split; [intros r; destruct (errcode r); reflexivity|].
  assert (0 < 2 ^ (Z.pos ptr_bits - 1)) by (apply Z.pow_pos_nonneg; lia).
  pose proof (pow2_ptr_bits ptr_bits).
  split; [unfold PTRDIFF_MIN; lia|].
  split; [unfold PTRDIFF_MIN, PTRDIFF_MAX; lia|].
  apply (defined_call_inv ptr_bits SlangParseLang argc argv (start m) w' rc
           Hargc) in Hrun
    as (argv1 & X & X' & T & _ & HX & _ & _ & _ & ->).
  cbn [start heap trace app] in HX |- *.
  exists (langCode_for ptr_bits argv1 X), X, X', T.
  assert (Hlen : Z.of_nat (length X) <= PTRDIFF_MAX ptr_bits ->
                 n (langCode_for ptr_bits argv1 X) = Z.of_nat (length X)).
  { intros Hfits. unfold langCode_for; cbn [n].
    apply to_ptrdiff_t_size_t. lia. }
  split; [reflexivity|]. split; [exact HX|].
  split; [apply to_ptrdiff_t_range|].
  split; [exact Hlen|].
  split; [intros Hfit; apply Hlen; exact (load_string_fits _ _ _ _ Hfit HX)|].
  split; [apply utf8_chars_le|].
  split; [apply utf8_chars_lt|].
  cbn [stdout]. now rewrite app_nil_r.
Qed.

Lemma boundary_integers_witness :
  (forall r : SlangParseLangResult,
     -128 <= SlangInt8_value (errcode r) <= 127) /\
  (forall r : SlangParseLangResult,
     SlangInt8_of_Z (SlangInt8_value (errcode r)) = errcode r) /\
  PTRDIFF_MIN 32 < 0 /\
  PTRDIFF_MAX 32 - PTRDIFF_MIN 32 + 1 = 2 ^ 32 /\
  exists v X X' T,
    calls [EvCall (langCode_for 32 (Ptr 0 6) [xc3; xa9]);
           EvWrite (report_text [xc3; xa9] (-1) [])] = [v] /\
    load_string Demo.memory_utf8 (p v) = Some X /\
    PTRDIFF_MIN 32 <= n v <= PTRDIFF_MAX 32 /\
    (Z.of_nat (length X) <= PTRDIFF_MAX 32 -> n v = Z.of_nat (length X)) /\
    (objects_fit 32 Demo.memory_utf8 -> n v = Z.of_nat (length X)) /\
    (utf8_chars X <= length X)%nat /\
    ((exists b, b ∈ X /\ utf8_continuation b = true) ->
     (utf8_chars X < length X)%nat) /\
    stdout [EvCall (langCode_for 32 (Ptr 0 6) [xc3; xa9]);
            EvWrite (report_text [xc3; xa9] (-1) [])] =
      report_text X'
        (SlangInt8_value
           (errcode (fst (Demo.callee_fail v Demo.memory_utf8)))) T.
Proof.
  refine (boundary_integers 32 Demo.callee_fail 2 Demo.argv Demo.memory_utf8 0
            {| heap := <[ 7%nat := [NUL] ]> Demo.memory_utf8;
               trace := [EvCall (langCode_for 32 (Ptr 0 6) [xc3; xa9]);
                         EvWrite (report_text [xc3; xa9] (-1) [])] |} _ _).
  - lia.
  - reflexivity.
Defined.

(** * Further properties of [main] *)

(** ** Each branch as one equation *)

Section Branches.

Variable ptr_bits : positive.
Variable SlangParseLang : SlangString -> mem -> SlangParseLangResult * mem.

Lemma usage_branch_eq (argc : Z) (argv : list ptr) (w : world) :
  argc < 2 ->
  main ptr_bits SlangParseLang argc argv w =
  match argv !! 0%nat with
  | Some argv0 =>
      match load_string (heap w) argv0 with
      | Some name =>
          Some (0, {| heap := heap w;
                      trace := trace w ++ [EvWrite (usage_text name)] |})
      | None => None
      end
  | None => None
  end.
Proof.
  intros Hargc. destruct (argv !! 0%nat) as [argv0|] eqn:E.
  - now apply usage_branch.
  - unfold main. apply Z.ltb_lt in Hargc. rewrite Hargc.
    unfold bind, index, lift_opt. now rewrite E.
Qed.

Lemma call_branch_eq (argc : Z) (argv : list ptr) (w : world) :
  2 <= argc ->
  main ptr_bits SlangParseLang argc argv w =
  match argv !! 1%nat with
  | Some argv1 =>
      match load_string (heap w) argv1 with
      | Some X =>
          let (result, m') :=
            SlangParseLang (langCode_for ptr_bits argv1 X) (heap w) in
          match load_string m' argv1, load_string m' (tabstr result) with
          | Some X', Some T =>
              Some (0, {| heap := m';
                          trace := (trace w ++ [EvCall (langCode_for ptr_bits argv1 X)])
                                   ++ [EvWrite (report_text X'
                                         (SlangInt8_value (errcode result)) T)] |})
          | _, _ => None
          end
      | None => None
      end
  | None => None
  end.
Proof.
  intros Hargc. destruct (argv !! 1%nat) as [argv1|] eqn:E.
  - destruct (load_string (heap w) argv1) as [X|] eqn:HX.
    + destruct (SlangParseLang (langCode_for ptr_bits argv1 X) (heap w))
        as [result m'] eqn:Hcall.
      now apply call_branch.
    + unfold main. apply Z.ltb_ge in Hargc. rewrite Hargc.
      unfold bind, index, lift_opt, strlen. now rewrite E, HX.
  - unfold main. apply Z.ltb_ge in Hargc. rewrite Hargc.
    unfold bind, index, lift_opt. now rewrite E.
Qed.

End Branches.

Lemma usage_text_last (name : list byte) : last (usage_text name) = Some LF.
Proof. unfold usage_text. rewrite !app_assoc. apply last_snoc. Qed.

Lemma report_text_last (X : list byte) (code : Z) (T : list byte) :
  last (report_text X code T) = Some LF.
Proof. unfold report_text. rewrite !app_assoc. apply last_snoc. Qed.

(** ** When a run is defined *)

(** X1. With [argc < 2] the run is defined exactly when [argv[0]]
    designates a string; an invocation without a program name (a null
    [argv[0]]) is undefined. *)
Theorem usage_defined_iff (ptr_bits : positive)
    (SlangParseLang : SlangString -> mem -> SlangParseLangResult * mem)
    (argc : Z) (argv : list ptr) (m : mem) :
  argc < 2 ->
  (is_Some (main ptr_bits SlangParseLang argc argv (start m)) <->
   exists argv0 name,
     argv !! 0%nat = Some argv0 /\ load_string m argv0 = Some name) /\
  (argv !! 0%nat = Some NULL ->
   main ptr_bits SlangParseLang argc argv (start m) = None).
Proof.
  intros Hargc. rewrite (usage_branch_eq _ _ argc argv (start m) Hargc).
  cbn [start heap trace]. split; [split|].
  - destruct (argv !! 0%nat) as [argv0|]; [|intros [o Ho]; discriminate Ho].
    destruct (load_string m argv0) as [name|] eqn:Hn;
      [|intros [o Ho]; discriminate Ho].
    intros _. now exists argv0, name.
  - intros (argv0 & name & -> & ->). eexists. reflexivity.
  - now intros ->.
Qed.

Lemma usage_defined_iff_witness :
  main 64 Demo.callee_ok 0 Edge.argv_none (start Demo.memory) = None.
Proof.
  refine (proj2 (usage_defined_iff 64 Demo.callee_ok 0 Edge.argv_none
                   Demo.memory _) _).
  - lia.
  - reflexivity.
Defined.

(** X2. With [argc >= 2] the run is defined exactly when [argv[1]]
    designates a string before the call and, in the memory the callee
    leaves, both [argv[1]] and the returned [tabstr] designate strings. *)
Theorem call_defined_iff (ptr_bits : positive)
    (SlangParseLang : SlangString -> mem -> SlangParseLangResult * mem)
    (argc : Z) (argv : list ptr) (m : mem) :
  2 <= argc ->
  (is_Some (main ptr_bits SlangParseLang argc argv (start m)) <->
   exists argv1 X,
     argv !! 1%nat = Some argv1 /\
     load_string m argv1 = Some X /\
     is_Some (load_string
                (snd (SlangParseLang (langCode_for ptr_bits argv1 X) m))
                argv1) /\
     is_Some (load_string
                (snd (SlangParseLang (langCode_for ptr_bits argv1 X) m))
                (tabstr (fst (SlangParseLang
                                (langCode_for ptr_bits argv1 X) m))))).
Proof.
  intros Hargc. rewrite (call_branch_eq _ _ argc argv (start m) Hargc).
  cbn [start heap trace]. split.
  - destruct (argv !! 1%nat) as [argv1|]; [|intros [o Ho]; discriminate Ho].
    destruct (load_string m argv1) as [X|] eqn:HX;
      [|intros [o Ho]; discriminate Ho].
    destruct (SlangParseLang (langCode_for ptr_bits argv1 X) m)
      as [result m'] eqn:Hcall.
    destruct (load_string m' argv1) as [X'|] eqn:HX';
      [|intros [o Ho]; discriminate Ho].
    destruct (load_string m' (tabstr result)) as [T|] eqn:HT;
      [|intros [o Ho]; discriminate Ho].
    intros _. exists argv1, X. rewrite Hcall. cbn [fst snd].
    rewrite HX', HT. eauto.
  - intros (argv1 & X & -> & -> & HX' & HT).
    destruct (SlangParseLang (langCode_for ptr_bits argv1 X) m)
      as [result m'].
    cbn [fst snd] in HX', HT.
    destruct HX' as [X' ->], HT as [T ->]. eexists. reflexivity.
Qed.

Lemma call_defined_iff_witness :
  is_Some (main 64 Demo.callee_ok 4 Demo.argv_more (start Demo.memory_more)) /\
  ~ is_Some (main 64 Demo.callee_null 4 Demo.argv_more (start Demo.memory_more)).
Proof.
  split.
  - refine (proj2 (call_defined_iff 64 Demo.callee_ok 4 Demo.argv_more
                     Demo.memory_more _) _); [lia|].
    exists (Ptr 3 8), (C "en").
    repeat split; try reflexivity; eexists; reflexivity.
  - intros Hdef.
    refine (_ (proj1 (call_defined_iff 64 Demo.callee_null 4 Demo.argv_more
                        Demo.memory_more _) Hdef)); [|lia].
    intros (argv1 & X & Harg & _ & _ & [T HT]).
    injection Harg as <-. discriminate HT.
Defined.

(** ** The argument is printed as it is after the call *)

(** X3. [argv[1]] is read again by [printf] after the callee returned:
    the callee receives the view of the string [X] that was there before
    the call, and the first line shows the string [X'] that is there
    afterwards, so a callee that writes through the borrowed pointer
    changes what is printed. *)
Theorem main_echo_after_call (ptr_bits : positive)
    (SlangParseLang : SlangString -> mem -> SlangParseLangResult * mem)
    (m : mem) (argc : Z) (argv : list ptr) (argv1 : ptr) (X X' : list byte)
    (result : SlangParseLangResult) (m' : mem) (T : list byte) :
  2 <= argc ->
  argv !! 1%nat = Some argv1 ->
  load_string m argv1 = Some X ->
  SlangParseLang (langCode_for ptr_bits argv1 X) m = (result, m') ->
  load_string m' argv1 = Some X' ->
  load_string m' (tabstr result) = Some T ->
  exists rc w',
    main ptr_bits SlangParseLang argc argv (start m) = Some (rc, w') /\
    calls (trace w') = [langCode_for ptr_bits argv1 X] /\
    stdout (trace w') =
      C "SlangParseLang('" ++ X' ++ C "'): code = "
        ++ decimal (SlangInt8_value (errcode result))
        ++ LF :: T ++ [LF].
Proof.
  intros Hargc Harg HX Hcall HX' HT.
  rewrite (call_branch ptr_bits SlangParseLang argc argv (start m) argv1 X
             result m' Hargc Harg HX Hcall).
  rewrite HX', HT. eexists _, _. split; [reflexivity|].
  cbn [trace start app calls stdout]. split; [reflexivity|].
  rewrite app_nil_r. unfold report_text, report_line.
  now rewrite <- !app_assoc.
Qed.

Lemma main_echo_after_call_witness :
  exists rc w',
    main 64 Edge.callee_clobber 2 Demo.argv (start Demo.memory)
      = Some (rc, w') /\
    calls (trace w') = [langCode_for 64 (Ptr 0 6) (C "en")] /\
    stdout (trace w') =
      C "SlangParseLang('" ++ C "EN" ++ C "'): code = "
        ++ decimal (SlangInt8_value (errcode Demo.result_ok))
        ++ LF :: C "OK" ++ [LF].
Proof.
  refine (main_echo_after_call 64 Edge.callee_clobber Demo.memory 2 Demo.argv
            (Ptr 0 6) (C "en") (C "EN") Demo.result_ok
            (<[ 7%nat := C "OK" ++ [NUL] ]>
               (<[ 0%nat := C "slang" ++ NUL :: C "EN" ++ [NUL] ]> Demo.memory))
            (C "OK") _ _ _ _ _ _).
  - lia.
  - reflexivity.
  - reflexivity.
  - reflexivity.
  - reflexivity.
  - reflexivity.
Defined.

(** ** The length field at the bound of [ptrdiff_t] *)

(** X4. The [size_t] result of [strlen] is stored in the [ptrdiff_t]
    field [n]: the callee always receives a value of the [ptrdiff_t]
    range, and that value is the length of the argument exactly when the
    length is at most [PTRDIFF_MAX]. *)
Theorem main_view_length_iff (ptr_bits : positive)
    (SlangParseLang : SlangString -> mem -> SlangParseLangResult * mem)
    (m : mem) (argc : Z) (argv : list ptr) (argv1 : ptr) (X : list byte)
    (rc : Z) (w' : world) :
  2 <= argc ->
  argv !! 1%nat = Some argv1 ->
  load_string m argv1 = Some X ->
  main ptr_bits SlangParseLang argc argv (start m) = Some (rc, w') ->
  exists v,
    calls (trace w') = [v] /\
    p v = argv1 /\
    PTRDIFF_MIN ptr_bits <= n v <= PTRDIFF_MAX ptr_bits /\
    (n v = Z.of_nat (length X) <->
     Z.of_nat (length X) <= PTRDIFF_MAX ptr_bits).
Proof.
  intros Hargc Harg HX.
  rewrite (call_branch_eq _ _ argc argv (start m) Hargc), Harg.
  cbn [start heap trace]. rewrite HX.
  destruct (SlangParseLang (langCode_for ptr_bits argv1 X) m) as [result m'].
  destruct (load_string m' argv1); [|discriminate].
  destruct (load_string m' (tabstr result)); [|discriminate].
  intros [= <- <-]. exists (langCode_for ptr_bits argv1 X).
  cbn [trace app calls]. split; [reflexivity|]. split; [reflexivity|].
  unfold langCode_for; cbn [n].
  pose proof (to_ptrdiff_t_range ptr_bits
                (to_size_t ptr_bits (Z.of_nat (length X)))) as Hrange.
  split; [exact Hrange|]. split.
  - intros <-. apply Hrange.
  - intros Hfits. apply to_ptrdiff_t_size_t. lia.
Qed.

Lemma main_view_length_iff_witness :
  exists v,
    calls [EvCall (langCode_for 64 (Ptr 3 8) (C "en"));
           EvWrite (report_text (C "en")
                      (SlangInt8_value (errcode Demo.result_ok)) (C "OK"))]
      = [v] /\
    p v = Ptr 3 8 /\
    PTRDIFF_MIN 64 <= n v <= PTRDIFF_MAX 64 /\
    (n v = Z.of_nat (length (C "en")) <->
     Z.of_nat (length (C "en")) <= PTRDIFF_MAX 64).
Proof.
  refine (main_view_length_iff 64 Demo.callee_ok Demo.memory_more 4
            Demo.argv_more (Ptr 3 8) (C "en") 0
            {| heap := <[ 7%nat := C "OK" ++ [NUL] ]> Demo.memory_more;
               trace := [EvCall (langCode_for 64 (Ptr 3 8) (C "en"));
                         EvWrite (report_text (C "en")
                                    (SlangInt8_value (errcode Demo.result_ok))
                                    (C "OK"))] |} _ _ _ _).
  - lia.
  - reflexivity.
  - reflexivity.
  - reflexivity.
Defined.

(** ** What every defined run has in common *)

(** X5. Whatever the callee does and whichever branch is taken, a run of
    [main] that is defined returns 0, writes to standard output exactly
    once, a text that ends with a newline, makes its call (if any) before
    that write, and releases nothing. *)
Theorem main_defined_run (ptr_bits : positive)
    (SlangParseLang : SlangString -> mem -> SlangParseLangResult * mem)
    (argc : Z) (argv : list ptr) (m : mem) (rc : Z) (w' : world) :
  main ptr_bits SlangParseLang argc argv (start m) = Some (rc, w') ->
  rc = 0 /\
  exists bs,
    last bs = Some LF /\
    stdout (trace w') = bs /\
    releases (trace w') = [] /\
    ((argc < 2 /\ trace w' = [EvWrite bs] /\ heap w' = m) \/
     (2 <= argc /\ exists v, trace w' = [EvCall v; EvWrite bs] /\
                             heap w' = snd (SlangParseLang v m))).
Proof.
  destruct (Z.lt_ge_cases argc 2) as [Hlt|Hge].
  - rewrite (usage_branch_eq _ _ argc argv (start m) Hlt).
    destruct (argv !! 0%nat) as [argv0|]; [|discriminate].
    cbn [start heap trace].
    destruct (load_string m argv0) as [name|]; [|discriminate].
    intros [= <- <-]. split; [reflexivity|].
    exists (usage_text name). cbn [trace heap app stdout releases].
    rewrite app_nil_r. split; [apply usage_text_last|].
    repeat split. left. now repeat split.
  - rewrite (call_branch_eq _ _ argc argv (start m) Hge).
    destruct (argv !! 1%nat) as [argv1|]; [|discriminate].
    cbn [start heap trace].
    destruct (load_string m argv1) as [X|]; [|discriminate].
    destruct (SlangParseLang (langCode_for ptr_bits argv1 X) m)
      as [result m'] eqn:Hcall.
    destruct (load_string m' argv1) as [X'|]; [|discriminate].
    destruct (load_string m' (tabstr result)) as [T|]; [|discriminate].
    intros [= <- <-]. split; [reflexivity|].
    exists (report_text X' (SlangInt8_value (errcode result)) T).
    cbn [trace heap app stdout releases].
    rewrite app_nil_r. split; [apply report_text_last|].
    repeat split. right. split; [exact Hge|].
    exists (langCode_for ptr_bits argv1 X). now rewrite Hcall.
Qed.

Lemma main_defined_run_witness :
  0 = 0 /\
  exists bs,
    last bs = Some LF /\
    stdout [EvCall (langCode_for 64 (Ptr 0 6) []);
            EvWrite (C "SlangParseLang(''): code = -1\n\n")] = bs /\
    releases [EvCall (langCode_for 64 (Ptr 0 6) []);
              EvWrite (C "SlangParseLang(''): code = -1\n\n")] = [] /\
    ((2 < 2 /\
      [EvCall (langCode_for 64 (Ptr 0 6) []);
       EvWrite (C "SlangParseLang(''): code = -1\n\n")] = [EvWrite bs] /\
      <[ 7%nat := [NUL] ]> Demo.memory_empty = Demo.memory_empty) \/
     (2 <= 2 /\
      exists v,
        [EvCall (langCode_for 64 (Ptr 0 6) []);
         EvWrite (C "SlangParseLang(''): code = -1\n\n")]
          = [EvCall v; EvWrite bs] /\
        <[ 7%nat := [NUL] ]> Demo.memory_empty
          = snd (Demo.callee_fail v Demo.memory_empty))).
Proof.
  refine (main_defined_run 64 Demo.callee_fail 2 Demo.argv Demo.memory_empty 0
            {| heap := <[ 7%nat := [NUL] ]> Demo.memory_empty;
               trace := [EvCall (langCode_for 64 (Ptr 0 6) []);
                         EvWrite (C "SlangParseLang(''): code = -1\n\n")] |} _).
  reflexivity.
Defined.

(** ** The usage line depends on the program name alone *)

(** X6. On the usage path [main] reads nothing but [argv[0]]: two
    invocations with [argc < 2] whose [argv[0]] hold the same name print
    the same text and end with the same status, whatever their callees,
    their other [argv] entries and the rest of their memories are, and
    each leaves its memory as it found it. *)
Theorem usage_reads_name_only (ptr_bits : positive)
    (callee_a callee_b : SlangString -> mem -> SlangParseLangResult * mem)
    (m_a m_b : mem) (argc_a argc_b : Z) (argv_a argv_b : list ptr)
    (argv0_a argv0_b : ptr) (name : list byte) :
  argc_a < 2 -> argc_b < 2 ->
  argv_a !! 0%nat = Some argv0_a -> argv_b !! 0%nat = Some argv0_b ->
  load_string m_a argv0_a = Some name ->
  load_string m_b argv0_b = Some name ->
  exists rc_a w_a rc_b w_b,
    main ptr_bits callee_a argc_a argv_a (start m_a) = Some (rc_a, w_a) /\
    main ptr_bits callee_b argc_b argv_b (start m_b) = Some (rc_b, w_b) /\
    stdout (trace w_a) = stdout (trace w_b) /\
    exit_status rc_a = exit_status rc_b /\
    heap w_a = m_a /\ heap w_b = m_b.
Proof.
  intros Ha Hb Harga Hargb Hna Hnb.
  rewrite (usage_branch ptr_bits callee_a argc_a argv_a (start m_a) argv0_a
             Ha Harga).
  rewrite (usage_branch ptr_bits callee_b argc_b argv_b (start m_b) argv0_b
             Hb Hargb).
  cbn [start heap trace]. rewrite Hna, Hnb.
  eexists _, _, _, _. split; [reflexivity|]. split; [reflexivity|].
  repeat split.
Qed.

Lemma usage_reads_name_only_witness :
  exists rc_a w_a rc_b w_b,
    main 64 Demo.callee_ok 1 Demo.argv_alone (start Demo.memory)
      = Some (rc_a, w_a) /\
    main 64 Demo.callee_null 0 Demo.argv (start Demo.memory_empty)
      = Some (rc_b, w_b) /\
    stdout (trace w_a) = stdout (trace w_b) /\
    exit_status rc_a = exit_status rc_b /\
    heap w_a = Demo.memory /\ heap w_b = Demo.memory_empty.
Proof.
  refine (usage_reads_name_only 64 Demo.callee_ok Demo.callee_null
            Demo.memory Demo.memory_empty 1 0 Demo.argv_alone Demo.argv
            (Ptr 0 0) (Ptr 0 0) (C "slang") _ _ _ _ _ _).
  - lia.
  - lia.
  - reflexivity.
  - reflexivity.
  - reflexivity.
  - reflexivity.
Defined.

(** ** Error codes are printed signed *)

(** The numeral of an error code is one to four bytes long and begins
    with a minus sign exactly for the bytes 0x80 to 0xff. *)
Lemma errcode_numeral (e : SlangInt8) :
  (1 <= length (decimal (SlangInt8_value e)) <= 4)%nat /\
  (hd_error (decimal (SlangInt8_value e)) = Some x2d <->
   (128 <= Byte.to_N e)%N).
Proof.
  assert (Hb : (Nat.leb 1 (length (decimal (SlangInt8_value e)))
                && Nat.leb (length (decimal (SlangInt8_value e))) 4
                && Bool.eqb
                     (match decimal (SlangInt8_value e) with
                      | x2d :: _ => true
                      | _ => false
                      end)
                     (N.leb 128 (Byte.to_N e)))%bool = true)
    by (destruct e; reflexivity).
  apply andb_prop in Hb as [Hb Hsign]. apply andb_prop in Hb as [Hlo Hhi].
  apply Nat.leb_le in Hlo, Hhi. apply Bool.eqb_prop in Hsign.
  split; [lia|]. rewrite <- N.leb_le, <- Hsign.
  destruct (decimal (SlangInt8_value e)) as [|b d]; cbn [hd_error].
  - split; discriminate.
  - split.
    + now intros [= ->].
    + destruct b; (discriminate || reflexivity).
Qed.

(** X7. In every defined run with [argc >= 2] the byte of [errcode] that
    the callee returned reaches [%d] as a signed value: between
    [code = ] and the newline [main] prints a numeral of one to four
    bytes that reads back as the byte itself below 0x80 and as the byte
    minus 256 from 0x80 on, where it begins with a minus sign. *)
Theorem main_prints_errcode_signed (ptr_bits : positive)
    (SlangParseLang : SlangString -> mem -> SlangParseLangResult * mem)
    (argc : Z) (argv : list ptr) (m : mem) (rc : Z) (w' : world) :
  2 <= argc ->
  main ptr_bits SlangParseLang argc argv (start m) = Some (rc, w') ->
  exists v X' T d,
    calls (trace w') = [v] /\
    load_string (snd (SlangParseLang v m)) (p v) = Some X' /\
    load_string (snd (SlangParseLang v m))
                (tabstr (fst (SlangParseLang v m))) = Some T /\
    stdout (trace w') =
      C "SlangParseLang('" ++ X' ++ C "'): code = " ++ d ++ LF :: T ++ [LF] /\
    parse_decimal d =
      Some (if (Byte.to_N (errcode (fst (SlangParseLang v m))) <? 128)%N
            then Z.of_N (Byte.to_N (errcode (fst (SlangParseLang v m))))
            else Z.of_N (Byte.to_N (errcode (fst (SlangParseLang v m)))) - 256) /\
    (1 <= length d <= 4)%nat /\
    (hd_error d = Some x2d <->
     (128 <= Byte.to_N (errcode (fst (SlangParseLang v m))))%N).
Proof.
  intros Hargc Hrun.
  apply (defined_call_inv ptr_bits SlangParseLang argc argv (start m) w' rc
           Hargc) in Hrun
    as (argv1 & X & X' & T & _ & _ & HX' & HT & _ & ->).
  cbn [start heap trace app] in HX', HT |- *.
  set (v := langCode_for ptr_bits argv1 X) in *.
  exists v, X', T,
    (decimal (SlangInt8_value (errcode (fst (SlangParseLang v m))))).
  split; [reflexivity|]. split; [exact HX'|]. split; [exact HT|].
  split.
  { cbn [calls stdout]. rewrite app_nil_r.
    unfold report_text, report_line. now rewrite <- !app_assoc. }
  split.
  { rewrite parse_decimal_decimal. f_equal.
    unfold SlangInt8_value. cbv zeta.
    generalize (Byte.to_N (errcode (fst (SlangParseLang v m)))) as k.
    intros k.
    destruct (N.ltb_spec k 128) as [Hn|Hn];
      destruct (Z.ltb_spec (Z.of_N k) 128) as [Hz|Hz];
      try reflexivity; lia. }
  apply errcode_numeral.
Qed.

Lemma main_prints_errcode_signed_witness :
  exists v X' T d,
    calls [EvCall (langCode_for 64 (Ptr 0 6) (C "en"));
           EvWrite (C "SlangParseLang('en'): code = -1\n\n")] = [v] /\
    load_string (snd (Demo.callee_fail v Demo.memory)) (p v) = Some X' /\
    load_string (snd (Demo.callee_fail v Demo.memory))
                (tabstr (fst (Demo.callee_fail v Demo.memory))) = Some T /\
    stdout [EvCall (langCode_for 64 (Ptr 0 6) (C "en"));
            EvWrite (C "SlangParseLang('en'): code = -1\n\n")] =
      C "SlangParseLang('" ++ X' ++ C "'): code = " ++ d ++ LF :: T ++ [LF] /\
    parse_decimal d =
      Some (if (Byte.to_N (errcode (fst (Demo.callee_fail v Demo.memory)))
                <? 128)%N
            then Z.of_N (Byte.to_N
                           (errcode (fst (Demo.callee_fail v Demo.memory))))
            else Z.of_N (Byte.to_N
                           (errcode (fst (Demo.callee_fail v Demo.memory))))
                 - 256) /\
    (1 <= length d <= 4)%nat /\
    (hd_error d = Some x2d <->
     (128 <= Byte.to_N (errcode (fst (Demo.callee_fail v Demo.memory))))%N).
Proof.
  refine (main_prints_errcode_signed 64 Demo.callee_fail 2 Demo.argv
            Demo.memory 0
            {| heap := <[ 7%nat := [NUL] ]> Demo.memory;
               trace := [EvCall (langCode_for 64 (Ptr 0 6) (C "en"));
                         EvWrite (C "SlangParseLang('en'): code = -1\n\n")] |}
            _ _).
  - lia.
  - reflexivity.
Defined.
